(** * PyFENG: moment formulas of the Heston model ([pyfeng/heston.py])

    A shallow embedding of [HestonABC.var_mv], [HestonABC.avgvar_mv],
    [HestonABC.varswap] and [HestonUncorrBallRoma1994.price].

    Conventions of the embedding.
    - Python and numpy floats are read as real numbers: [exp] and [sqrt] are
      the functions of the Standard Library, rounding, overflow and nan are
      outside the model.  The formulas are exact there; what rounding does
      to them is looked at in the module [F64], where [avgvar_mv] is
      embedded a second time on binary64 numbers.
    - A division whose divisor is exactly zero has no real value.  Python
      raises [ZeroDivisionError] on float operands and numpy yields inf or
      nan; both are the outcome [Singular] here, and every division by a
      quantity that is not a literal goes through [pydiv].
    - [print] appends to an explicit list of console events, [raise] is the
      outcome [ValueError].
    - The module [bsm] and the parameter storage of [sv.SvABC] are not part
      of the file; the pricer is an interface ([BsmMethods]) and the
      parameters are the record [Heston]. *)

From Stdlib Require Import ZArith Floats.
From Stdlib Require Import Reals Lra List.
Import ListNotations.
Open Scope R_scope.

(** ** Outcomes *)

Inductive result (A : Type) : Type :=
| Ok (a : A)
| Singular
| ValueError (order : R).

Arguments Ok {A} a.
Arguments Singular {A}.
Arguments ValueError {A} order.

Definition bind {A B : Type} (r : result A) (k : A -> result B) : result B :=
  match r with
  | Ok a => k a
  | Singular => Singular
  | ValueError o => ValueError o
  end.

Notation "x <- e ;; k" := (bind e (fun x => k))
  (at level 61, e at next level, right associativity).
Notation "' pat <- e ;; k" := (bind e (fun x => match x with pat => k end))
  (at level 61, pat pattern, e at next level, right associativity).

Definition fmap {A B : Type} (f : A -> B) (r : result A) : result B :=
  x <- r ;; Ok (f x).

(** [x / y] of the source. *)
Definition pydiv (x y : R) : result R :=
  if Req_dec_T y 0 then Singular else Ok (x / y).

Infix "//" := pydiv (at level 40, left associativity).

(** [v or d] of the source on an optional number: [None] and zero are
    falsy, every other number is truthy. *)
Definition py_or (v : option R) (d : R) : R :=
  match v with
  | None => d
  | Some x => if Req_dec_T x 0 then d else x
  end.

(** [np.isclose(a, b)] with numpy's default tolerances
    [rtol = 1e-05], [atol = 1e-08]. *)
Definition rtol : R := 1e-5.
Definition atol : R := 1e-8.

Definition isclose (a b : R) : bool :=
  if Rle_dec (Rabs (a - b)) (atol + rtol * Rabs b) then true else false.

(** ** Model parameters

    The attributes read through [self]; [order] is the class attribute of
    [HestonUncorrBallRoma1994] (2 unless an instance overrides it). *)

Record Heston : Type := {
  sigma : R;
  vov : R;
  rho : R;
  mr : R;
  theta : R;
  intr : R;
  divr : R;
  order : R
}.

(** ** [HestonABC] *)

Definition var_mv (self : Heston) (var0 dt : R) : result (R * R) :=
  let expo := exp (- mr self * dt) in
  let m := theta self + (var0 - theta self) * expo in
  let s2 := var0 * expo + theta self * (1 - expo) / 2 in
  q <- (vov self ^ 2 * (1 - expo)) // mr self ;;
  let s2 := s2 * q in
  Ok (m, s2).

Definition avgvar_mv (self : Heston) (texp : R) (var0 : option R)
  : result (R * R) :=
  let var0 := py_or var0 (sigma self) in
  let mr_t := mr self * texp in
  let e_mr_t := exp (- mr_t) in
  let x0 := var0 - theta self in
  q <- (x0 * (1 - e_mr_t)) // mr_t ;;
  let mean := theta self + q in
  q <- ((1 - e_mr_t)
        * (var0 - 2.5 * theta self + (var0 - theta self / 2) * e_mr_t))
       // mr_t ;;
  let var := (theta self - 2 * x0 * e_mr_t) + q in
  q <- vov self // mr_t ;;
  let var := var * (q ^ 2 * texp) in
  Ok (mean, var).

Definition varswap (self : Heston) (texp : R) (n_per_yr : option R)
  : result R :=
  let var0 := sigma self in
  let mr_t := mr self * texp in
  let e_mr_t := exp (- mr_t) in
  let x0 := var0 - theta self in
  q <- (x0 * (1 - e_mr_t)) // mr_t ;;
  let strike := theta self + q in
  match n_per_yr with
  | None => Ok strike
  | Some n_per_yr =>
      mr_a <- mr self // n_per_yr ;;
      let e_mr_a := exp (- mr_a) in
      let tmp := theta self - 2 * intr self in
      q1 <- tmp // (4 * n_per_yr) ;;
      q2 <- (2 * x0 * (1 - e_mr_t)) // mr_t ;;
      let strike := strike + q1 * (tmp + q2) in
      tmp <- vov self // mr self ;;
      q <- (1 - e_mr_a) // mr_a ;;
      let strike :=
        strike + theta self * tmp * (tmp / 4 - rho self) * (1 - q) in
      q1 <- (x0 * tmp * (tmp / 2 - rho self) * (1 - e_mr_t)) // mr_t ;;
      q2 <- 1 // e_mr_a ;;
      q3 <- mr_a // (1 - q2) ;;
      let strike := strike + q1 * (1 + q3) in
      q1 <- (2 * x0 ^ 2) // mr self ;;
      q2 <- ((tmp ^ 2 * (theta self - 2 * var0) + q1) * (1 - e_mr_t ^ 2))
            // (8 * mr_t) ;;
      q3 <- (q2 * (1 - e_mr_a)) // (1 + e_mr_a) ;;
      let strike := strike + q3 in
      Ok strike
  end.

(** ** The Black-Scholes collaborator

    [bsm.Bsm(sigma, intr=, divr=)] builds a pricer; [price] and [d2_var]
    are its two methods used here. *)

Record Bsm : Type := {
  bsm_sigma : R;
  bsm_intr : R;
  bsm_divr : R
}.

Class BsmMethods : Type := {
  Bsm_price : Bsm -> R -> R -> R -> R -> R;
  Bsm_d2_var : Bsm -> R -> R -> R -> R -> R
}.

(** ** [HestonUncorrBallRoma1994] *)

Inductive event : Type :=
| PricingIgnoresRho (rho : R).

Record call (A : Type) : Type := {
  stdout : list event;
  outcome : result A
}.

Arguments stdout {A} c.
Arguments outcome {A} c.

Section BallRoma.

Context {bs : BsmMethods}.

(** [price(self, strike, spot, texp, cp=1)]: a call that leaves [cp] out
    is the call with [cp = 1]. *)

Definition price (self : Heston) (strike spot texp cp : R) : call R :=
  let out :=
    if negb (isclose (rho self) 0.0)
    then [PricingIgnoresRho (rho self)] else [] in
  {| stdout := out;
     outcome :=
       '(avgvar, var) <- avgvar_mv self texp None ;;
       let m_bs := {| bsm_sigma := sqrt avgvar;
                      bsm_intr := intr self;
                      bsm_divr := divr self |} in
       let price := Bsm_price m_bs strike spot texp cp in
       if Req_dec_T (order self) 2
       then Ok (price + 0.5 * var * Bsm_d2_var m_bs strike spot texp cp)
       else if Rgt_dec (order self) 2
            then ValueError (order self)
            else Ok price |}.

End BallRoma.

(** ** Sample inputs

    The parameter set of the specification's concrete scenario. *)

Definition scenario : Heston :=
  {| sigma := 0.04; vov := 0.3; rho := 0.0; mr := 1.5; theta := 0.04;
     intr := 0; divr := 0; order := 2 |}.

(** The same instance with another correlation or approximation order. *)

Definition with_rho (p : Heston) (r : R) : Heston :=
  {| sigma := sigma p; vov := vov p; rho := r; mr := mr p;
     theta := theta p; intr := intr p; divr := divr p; order := order p |}.

Definition with_order (p : Heston) (o : R) : Heston :=
  {| sigma := sigma p; vov := vov p; rho := rho p; mr := mr p;
     theta := theta p; intr := intr p; divr := divr p; order := o |}.

(** Two instances that agree on everything but [rho]. *)
Definition same_but_rho (p1 p2 : Heston) : Prop :=
  sigma p1 = sigma p2 /\ vov p1 = vov p2 /\ mr p1 = mr p2
  /\ theta p1 = theta p2 /\ intr p1 = intr p2 /\ divr p1 = divr p2
  /\ order p1 = order p2.

(** A stand-in for the collaborator, used to run [price] on sample inputs:
    the value of a forward plus a volatility premium, with a constant
    curvature in the variance. *)
Definition sample_pricer : BsmMethods :=
  {| Bsm_price := fun m strike spot texp cp =>
       cp * (spot - strike) + bsm_sigma m * texp;
     Bsm_d2_var := fun _ _ _ _ _ => 1 |}.

(** A call returns when its outcome is a value. *)
Definition returns {A : Type} (r : result A) : Prop := exists v, r = Ok v.

(** The same instance with another volatility of variance. *)

Definition with_vov (p : Heston) (v : R) : Heston :=
  {| sigma := sigma p; vov := v; rho := rho p; mr := mr p;
     theta := theta p; intr := intr p; divr := divr p; order := order p |}.

(** The scenario started above its long-run level, the scenario with
    variance quoted in a unit four times smaller, and the scenario with
    time counted in quarters. *)

Definition scenario_high : Heston :=
  {| sigma := 0.09; vov := 0.3; rho := 0.0; mr := 1.5; theta := 0.04;
     intr := 0; divr := 0; order := 2 |}.

Definition scenario_times4 : Heston :=
  {| sigma := 0.16; vov := 0.6; rho := 0.0; mr := 1.5; theta := 0.16;
     intr := 0; divr := 0; order := 2 |}.

Definition scenario_quarters : Heston :=
  {| sigma := 0.04; vov := 0.15; rho := 0.0; mr := 0.375; theta := 0.04;
     intr := 0; divr := 0; order := 2 |}.

(** ** [avgvar_mv] in double precision

    The same function on binary64 numbers, operation by operation in the
    order Python evaluates them.  The parameters and [texp] are Python
    floats: [self.vov/mr_t] raises [ZeroDivisionError] on a zero divisor
    ([None] here), while the two divisions whose dividend comes from
    [np.exp] follow IEEE 754.  [np.exp] belongs to numpy and is a
    parameter; [** 2] is the product of the number with itself. *)

#[local] Set Warnings "-inexact-float".

Module F64.

Record Heston : Type := {
  sigma : float;
  vov : float;
  rho : float;
  mr : float;
  theta : float;
  intr : float;
  divr : float
}.

Definition py_or (v : option float) (d : float) : float :=
  match v with
  | None => d
  | Some x => if (x =? 0)%float then d else x
  end.

Section Doubles.

Variable np_exp : float -> float.

Definition avgvar_mv (self : Heston) (texp : float) (var0 : option float)
  : option (float * float) :=
  let var0 := py_or var0 (sigma self) in
  let mr_t := (mr self * texp)%float in
  let e_mr_t := np_exp (- mr_t)%float in
  let x0 := (var0 - theta self)%float in
  let mean := (theta self + x0 * (1 - e_mr_t) / mr_t)%float in
  let var :=
    ((theta self - 2 * x0 * e_mr_t)
     + (1 - e_mr_t)
       * (var0 - 2.5 * theta self + (var0 - theta self / 2) * e_mr_t)
       / mr_t)%float in
  if (mr_t =? 0)%float then None
  else
    let q := (vov self / mr_t)%float in
    let var := (var * (q * q * texp))%float in
    Some (mean, var).

End Doubles.

(** The scenario's parameters as doubles. *)
Definition scenario : Heston :=
  {| sigma := 0.04; vov := 0.3; rho := 0; mr := 1.5; theta := 0.04;
     intr := 0; divr := 0 |}.

(** [np.exp] at [-(1.5 * 1e-7)], the one argument it gets in the run
    below: the double nearest to the exponential
    (see [np_exp_sample_correctly_rounded]). *)
Definition np_exp_sample (x : float) : float :=
  if (x =? -0x1.421f5f40d8376p-23)%float
  then 0x1.fffffaf782895p-1%float
  else nan.

(** The real number a finite double stands for. *)
Definition SF2R (f : spec_float) : R :=
  match f with
  | S754_finite s m e => (if s then -1 else 1) * IZR (Zpos m) * powerRZ 2 e
  | _ => 0
  end.

Definition F2R (x : float) : R := SF2R (Prim2SF x).

End F64.

(** ** The formulas of the specification

    Written from the specification's sections 4.1 to 4.3, in its own
    symbols ([a], [e], [x0], [aMon], [eMon], [tmp1], [tmp2]); they are what
    the functions above are compared with. *)

Module Spec.
Section Formulas.

Variable p : Heston.

Definition varianceMoments (var0 dt : R) : R * R :=
  let e := exp (- (mr p * dt)) in
  let mean := theta p + (var0 - theta p) * e in
  let variance :=
    (var0 * e + theta p * (1 - e) / 2) * vov p ^ 2 * (1 - e) / mr p in
  (mean, variance).

Definition averageVarianceMoments (texp var0 : R) : R * R :=
  let a := mr p * texp in
  let e := exp (- a) in
  let x0 := var0 - theta p in
  let mean := theta p + x0 * (1 - e) / a in
  let rawVar :=
    (theta p - 2 * x0 * e)
    + (1 - e) * (var0 - 2.5 * theta p + (var0 - theta p / 2) * e) / a in
  let variance := rawVar * (vov p / a) ^ 2 * texp in
  (mean, variance).

(** Section 4.4, step 3: the pricer built with effective volatility
  [sqrt avgVarMean] and the model's rates. *)
Definition effectivePricer (texp : R) : Bsm :=
  {| bsm_sigma := sqrt (fst (averageVarianceMoments texp (sigma p)));
   bsm_intr := intr p;
   bsm_divr := divr p |}.

Section FairStrike.

Variables texp n_per_yr : R.

Let a := mr p * texp.
Let e := exp (- a).
Let var0 := sigma p.
Let x0 := var0 - theta p.
Let aMon := mr p / n_per_yr.
Let eMon := exp (- aMon).
Let tmp1 := theta p - 2 * intr p.
Let tmp2 := vov p / mr p.

Definition baseStrike : R := theta p + x0 * (1 - e) / a.

Definition rateTerm : R :=
    tmp1 / (4 * n_per_yr) * (tmp1 + 2 * x0 * (1 - e) / a).

Definition vovTerm : R :=
    theta p * tmp2 * (tmp2 / 4 - rho p) * (1 - (1 - eMon) / aMon).

Definition crossTerm : R :=
    x0 * tmp2 * (tmp2 / 2 - rho p) * (1 - e) / a
    * (1 + aMon / (1 - 1 / eMon)).

Definition convexityTerm : R :=
    (tmp2 ^ 2 * (theta p - 2 * var0) + 2 * x0 ^ 2 / mr p)
    * (1 - e ^ 2) / (8 * a) * (1 - eMon) / (1 + eMon).

End FairStrike.

End Formulas.
End Spec.

(** ** The two weights of the average variance's variance

    With [a = mr * texp], the [rawVar] of [avgvar_mv] is
    [(theta * theta_weight a + 2 * var0 * var0_weight a) / (2 * a)]. *)



(** ** Basic facts on the outcome monad and on [exp] *)

Lemma pydiv_ok (x y : R) : y <> 0 -> x // y = Ok (x / y).
Proof.
  intro Hy. unfold pydiv. destruct (Req_dec_T y 0) as [E | _].
  - contradiction.
  - reflexivity.
Qed.

Lemma pydiv_zero (x : R) : x // 0 = Singular.
Proof.
  unfold pydiv. destruct (Req_dec_T 0 0) as [_ | N].
  - reflexivity.
  - now elim N.
Qed.

Lemma pydiv_inv (x y q : R) : x // y = Ok q -> y <> 0 /\ q = x / y.
Proof.
  unfold pydiv. destruct (Req_dec_T y 0) as [E | N]; intro H.
  - discriminate H.
  - injection H as <-. split; [exact N | reflexivity].
Qed.

Lemma py_or_None (d : R) : py_or None d = d.
Proof. reflexivity. Qed.

Lemma py_or_zero (d : R) : py_or (Some 0) d = d.
Proof.
  unfold py_or. destruct (Req_dec_T 0 0) as [_ | N].
  - reflexivity.
  - now elim N.
Qed.


Lemma exp_neg_lt_1 (x : R) : 0 < x -> exp (- x) < 1.
Proof.
  intro Hx. rewrite <- exp_0. apply exp_increasing. lra.
Qed.

Lemma exp_neg_pos (x : R) : 0 < exp (- x).
Proof. apply exp_pos. Qed.

(** The effective variance level of [avgvar_mv]: a closed form of the
    function once its divisor [mr * texp] is known not to vanish. *)
Lemma avgvar_mv_eval (self : Heston) (texp : R) (var0 : option R) :
  mr self * texp <> 0 ->
  avgvar_mv self texp var0
  = Ok (Spec.averageVarianceMoments self texp (py_or var0 (sigma self))).
Proof.
  intro Ha. unfold avgvar_mv, Spec.averageVarianceMoments.
  rewrite !pydiv_ok by exact Ha. cbn [bind].
  f_equal. f_equal. unfold Rdiv. ring.
Qed.

Lemma avgvar_mv_singular (self : Heston) (texp : R) (var0 : option R) :
  mr self * texp = 0 -> avgvar_mv self texp var0 = Singular.
Proof.
  intro Ha. unfold avgvar_mv. rewrite Ha, pydiv_zero. reflexivity.
Qed.

Lemma var_mv_eval (self : Heston) (var0 dt : R) :
  mr self <> 0 ->
  var_mv self var0 dt = Ok (Spec.varianceMoments self var0 dt).
Proof.
  intro Hm. unfold var_mv, Spec.varianceMoments.
  rewrite pydiv_ok by exact Hm. cbn [bind].
  replace (- mr self * dt) with (- (mr self * dt)) by ring.
  f_equal. f_equal. unfold Rdiv. ring.
Qed.

(** ** Average-variance moments ([avgvar_mv]) *)

(** A process started at its long-run mean keeps it on average. *)
Example avgvar_mean_at_theta (p : Heston) (texp : R) :
  fst (Spec.averageVarianceMoments p texp (theta p)) = theta p.
Proof.
  unfold Spec.averageVarianceMoments. cbn [fst]. unfold Rdiv. ring.
Qed.

(** Without volatility of variance the average variance is deterministic. *)
Example avgvar_variance_without_vov (p : Heston) (texp var0 : R) :
  vov p = 0 -> snd (Spec.averageVarianceMoments p texp var0) = 0.
Proof.
  intro Hv. unfold Spec.averageVarianceMoments. cbn [snd].
  rewrite Hv. unfold Rdiv. ring.
Qed.


Lemma avgvar_mv_default (p : Heston) (texp : R) :
  0 < mr p -> 0 < texp ->
  avgvar_mv p texp None
  = Ok (Spec.averageVarianceMoments p texp (sigma p)).
Proof.
  intros Hm Ht. rewrite avgvar_mv_eval by nra. reflexivity.
Qed.

(** The mean of the specification's scenario. *)
Example avgvar_mv_scenario_mean :
  fmap fst (avgvar_mv scenario 1 None) = Ok 0.04.
Proof.
  rewrite avgvar_mv_default by (cbn; lra). unfold fmap. cbn [bind].
  f_equal. apply (avgvar_mean_at_theta scenario 1).
Qed.


(** C9. A supplied [var0 = 0] gives the result of the call that omits
    [var0]: the [or] of the source replaces the falsy 0 by [sigma], and the
    moments returned are the documented formulas at [sigma], not at the
    supplied 0. *)
Theorem avgvar_mv_zero_is_default (p : Heston) (texp : R) :
  0 < mr p -> 0 < texp ->
  avgvar_mv p texp (Some 0) = avgvar_mv p texp None
  /\ py_or (Some 0) (sigma p) = sigma p
  /\ avgvar_mv p texp (Some 0)
     = Ok (Spec.averageVarianceMoments p texp (sigma p))
  /\ (sigma p <> 0 -> py_or (Some 0) (sigma p) <> 0).
Proof.
  intros Hm Ht. rewrite !avgvar_mv_eval by nra.
  rewrite py_or_zero, py_or_None. repeat split; try reflexivity.
  intro Hs. exact Hs.
Qed.

(** C2, at the failing input.  With the parameters of the specification's
    scenario ([sigma = 0.04]) and [texp = 1], a caller that supplies
    [var0 = 0] gets the moments at [var0 = 0.04]; they differ from the
    documented moments at the supplied [var0 = 0]. *)
Theorem avgvar_mv_supplied_zero_diverges :
  avgvar_mv scenario 1 (Some 0)
  = Ok (Spec.averageVarianceMoments scenario 1 0.04)
  /\ avgvar_mv scenario 1 (Some 0)
     <> Ok (Spec.averageVarianceMoments scenario 1 0).
Proof.
  assert (Ha : mr scenario * 1 <> 0) by (cbn; lra).
  rewrite (avgvar_mv_eval scenario 1 (Some 0) Ha), py_or_zero.
  split; [reflexivity |].
  intro H. injection H as Hmean _. revert Hmean.
  cbn [scenario sigma theta mr].
  pose proof (exp_neg_lt_1 (1.5 * 1) ltac:(lra)) as He.
  intro Hmean. unfold Rdiv in Hmean. nra.
Qed.

(** ** Fair strike of the variance swap ([varswap]) *)

Lemma py_or_self (d : R) : py_or (Some d) d = d.
Proof.
  unfold py_or. destruct (Req_dec_T d 0) as [E | N]; reflexivity.
Qed.

Lemma varswap_None_eval (p : Heston) (texp : R) :
  mr p * texp <> 0 -> varswap p texp None = Ok (Spec.baseStrike p texp).
Proof.
  intro Ha. unfold varswap, Spec.baseStrike.
  rewrite pydiv_ok by exact Ha. reflexivity.
Qed.

(** C4. Under continuous monitoring ([n_per_yr] is [None]) the fair strike
    is the mean returned by [avgvar_mv] at [var0 = sigma], supplied or
    defaulted, that is [theta + x0*(1-e)/a] with no correction term. *)
Theorem varswap_continuous_is_avgvar_mean (p : Heston) (texp : R) :
  0 < mr p -> 0 < texp ->
  varswap p texp None = fmap fst (avgvar_mv p texp (Some (sigma p)))
  /\ varswap p texp None = fmap fst (avgvar_mv p texp None)
  /\ varswap p texp None
     = Ok (fst (Spec.averageVarianceMoments p texp (sigma p)))
  /\ varswap p texp None = Ok (Spec.baseStrike p texp).
Proof.
  intros Hm Ht. assert (Ha : mr p * texp <> 0) by nra.
  rewrite !avgvar_mv_eval by exact Ha.
  rewrite py_or_self, py_or_None, varswap_None_eval by exact Ha.
  repeat split; reflexivity.
Qed.

(** C1. Under discrete monitoring with [n_per_yr] observations a year the
    fair strike is the continuous-monitoring base strike plus the four
    correction terms of the specification (rate, vol-of-vol, cross and
    convexity term), each added once. *)
Theorem varswap_discrete_four_terms (p : Heston) (texp n_per_yr : R) :
  0 < mr p -> 0 < texp -> 0 < n_per_yr ->
  varswap p texp (Some n_per_yr)
  = Ok (Spec.baseStrike p texp
        + Spec.rateTerm p texp n_per_yr
        + Spec.vovTerm p n_per_yr
        + Spec.crossTerm p texp n_per_yr
        + Spec.convexityTerm p texp n_per_yr).
Proof.
  intros Hm Ht Hn.
  assert (Ha : mr p * texp <> 0) by nra.
  assert (Hmon : 0 < mr p / n_per_yr) by (apply Rdiv_lt_0_compat; lra).
  pose proof (exp_neg_lt_1 _ Hmon) as He1.
  pose proof (exp_neg_pos (mr p / n_per_yr)) as He0.
  assert (Hinv : 1 - 1 / exp (- (mr p / n_per_yr)) <> 0).
  { intro H. apply Rminus_diag_uniq in H.
    assert (exp (- (mr p / n_per_yr)) = 1); [| lra].
    apply (Rmult_eq_compat_r (exp (- (mr p / n_per_yr)))) in H.
    unfold Rdiv in H. rewrite Rmult_1_l, Rmult_1_l, Rinv_l in H; lra. }
  unfold varswap.
  rewrite (pydiv_ok _ (mr p * texp)) by exact Ha. cbn [bind].
  rewrite (pydiv_ok _ n_per_yr) by lra. cbn [bind].
  rewrite (pydiv_ok _ (4 * n_per_yr)) by lra. cbn [bind].
  rewrite (pydiv_ok _ (mr p * texp)) by exact Ha. cbn [bind].
  rewrite (pydiv_ok _ (mr p)) by lra. cbn [bind].
  rewrite (pydiv_ok _ (mr p / n_per_yr)) by lra. cbn [bind].
  rewrite (pydiv_ok _ (mr p * texp)) by exact Ha. cbn [bind].
  rewrite (pydiv_ok _ (exp (- (mr p / n_per_yr)))) by lra. cbn [bind].
  rewrite (pydiv_ok _ (1 - 1 / exp (- (mr p / n_per_yr)))) by exact Hinv.
  cbn [bind].
  rewrite (pydiv_ok _ (mr p)) by lra. cbn [bind].
  rewrite (pydiv_ok _ (8 * (mr p * texp))) by lra. cbn [bind].
  rewrite (pydiv_ok _ (1 + exp (- (mr p / n_per_yr)))) by lra. cbn [bind].
  reflexivity.
Qed.

(** ** Option price ([HestonUncorrBallRoma1994.price]) *)

Section PriceFacts.

Context {bs : BsmMethods}.
Variables (p : Heston) (strike spot texp cp : R).

(** The base price and the second-order correction of the specification. *)
Let m_bs := Spec.effectivePricer p texp.
Let base := Bsm_price m_bs strike spot texp cp.
Let correction :=
  0.5 * snd (Spec.averageVarianceMoments p texp (sigma p))
  * Bsm_d2_var m_bs strike spot texp cp.

Lemma price_stdout :
  stdout (price p strike spot texp cp)
  = if isclose (rho p) 0 then [] else [PricingIgnoresRho (rho p)].
Proof.
  unfold price. cbn [stdout]. replace 0.0 with 0 by lra.
  destruct (isclose (rho p) 0); reflexivity.
Qed.

Lemma price_outcome :
  mr p * texp <> 0 ->
  outcome (price p strike spot texp cp)
  = if Req_dec_T (order p) 2 then Ok (base + correction)
    else if Rgt_dec (order p) 2 then ValueError (order p)
         else Ok base.
Proof.
  intro Ha. unfold price. cbn [outcome].
  rewrite avgvar_mv_eval by exact Ha. rewrite py_or_None.
  cbn [bind].
  destruct (Spec.averageVarianceMoments p texp (sigma p)) as [mean var] eqn:E.
  subst base correction m_bs. unfold Spec.effectivePricer.
  rewrite E. reflexivity.
Qed.

Lemma price_outcome_singular :
  mr p * texp = 0 -> outcome (price p strike spot texp cp) = Singular.
Proof.
  intro Ha. unfold price. cbn [outcome].
  rewrite avgvar_mv_singular by exact Ha. reflexivity.
Qed.

Lemma price_order_eq2 :
  mr p * texp <> 0 -> order p = 2 ->
  outcome (price p strike spot texp cp) = Ok (base + correction).
Proof.
  intros Ha Ho. rewrite price_outcome by exact Ha.
  destruct (Req_dec_T (order p) 2) as [_ | N]; [reflexivity | contradiction].
Qed.

Lemma price_order_gt2 :
  mr p * texp <> 0 -> order p > 2 ->
  outcome (price p strike spot texp cp) = ValueError (order p).
Proof.
  intros Ha Ho. rewrite price_outcome by exact Ha.
  destruct (Req_dec_T (order p) 2) as [E | _]; [lra |].
  destruct (Rgt_dec (order p) 2) as [_ | N]; [reflexivity | contradiction].
Qed.

Lemma price_order_lt2 :
  mr p * texp <> 0 -> order p < 2 ->
  outcome (price p strike spot texp cp) = Ok base.
Proof.
  intros Ha Ho. rewrite price_outcome by exact Ha.
  destruct (Req_dec_T (order p) 2) as [E | _]; [lra |].
  destruct (Rgt_dec (order p) 2) as [G | _]; [lra | reflexivity].
Qed.

End PriceFacts.

Section PriceClaims.

Context {bs : BsmMethods}.

(** C3. With approximation order 2, [price] returns the base price of the
    pricer built with volatility [sqrt avgVarMean] and the model's rates,
    plus [0.5 * avgVarVar * d2_var], where [(avgVarMean, avgVarVar)] is
    what [avgvar_mv texp] returns at the model's current variance level. *)
Theorem price_order2_second_order (p : Heston) (strike spot texp cp : R) :
  0 < mr p -> 0 < texp -> order p = 2 ->
  exists avgVarMean avgVarVar : R,
    avgvar_mv p texp None = Ok (avgVarMean, avgVarVar)
    /\ (avgVarMean, avgVarVar)
       = Spec.averageVarianceMoments p texp (sigma p)
    /\ outcome (price p strike spot texp cp)
       = let m_bs := {| bsm_sigma := sqrt avgVarMean;
                        bsm_intr := intr p;
                        bsm_divr := divr p |} in
         Ok (Bsm_price m_bs strike spot texp cp
             + 0.5 * avgVarVar * Bsm_d2_var m_bs strike spot texp cp).
Proof.
  intros Hm Ht Ho. assert (Ha : mr p * texp <> 0) by nra.
  destruct (Spec.averageVarianceMoments p texp (sigma p))
    as [mean var] eqn:E.
  exists mean, var. split; [| split].
  - rewrite avgvar_mv_default by assumption. now rewrite E.
  - reflexivity.
  - rewrite price_order_eq2 by assumption.
    unfold Spec.effectivePricer. rewrite E. reflexivity.
Qed.

(** C5, as amended. With an approximation order above 2 the call fails
    with the unsupported-order error and returns no value; the order is
    looked at last, so the correlation warning has been printed by then
    whenever [rho] is not close to zero. *)
Theorem price_order_above2_fails (p : Heston) (strike spot texp cp : R) :
  0 < mr p -> 0 < texp -> order p > 2 ->
  outcome (price p strike spot texp cp) = ValueError (order p)
  /\ ~ returns (outcome (price p strike spot texp cp))
  /\ stdout (price p strike spot texp cp)
     = if isclose (rho p) 0 then [] else [PricingIgnoresRho (rho p)].
Proof.
  intros Hm Ht Ho. assert (Ha : mr p * texp <> 0) by nra.
  rewrite price_order_gt2 by assumption. rewrite price_stdout.
  repeat split. intros [v Hv]. discriminate Hv.
Qed.

(** The outcome of [price] does not read [rho], whatever the order. *)
Lemma price_outcome_ignores_rho (p1 p2 : Heston) (strike spot texp cp : R) :
  same_but_rho p1 p2 ->
  outcome (price p1 strike spot texp cp)
  = outcome (price p2 strike spot texp cp).
Proof.
  intros (Hs & Hv & Hm & Hth & Hi & Hd & Ho).
  unfold price, avgvar_mv. cbn [outcome py_or].
  rewrite Hs, Hv, Hm, Hth, Hi, Hd, Ho. reflexivity.
Qed.

(** C8. Two instances that differ in [rho] only return the same price on
    the same call; each call prints the warning exactly when its [rho] is
    not close to zero, and returns that price all the same. *)
Theorem price_independent_of_rho
        (p1 p2 : Heston) (strike spot texp cp : R) :
  same_but_rho p1 p2 -> 0 < mr p1 -> 0 < texp -> order p1 <= 2 ->
  (exists v : R,
      outcome (price p1 strike spot texp cp) = Ok v
      /\ outcome (price p2 strike spot texp cp) = Ok v)
  /\ (isclose (rho p1) 0 = false ->
      stdout (price p1 strike spot texp cp) = [PricingIgnoresRho (rho p1)]
      /\ returns (outcome (price p1 strike spot texp cp)))
  /\ (isclose (rho p2) 0 = false ->
      stdout (price p2 strike spot texp cp) = [PricingIgnoresRho (rho p2)]
      /\ returns (outcome (price p2 strike spot texp cp))).
Proof.
  intros Hsame Hm Ht Ho. assert (Ha : mr p1 * texp <> 0) by nra.
  pose proof (price_outcome_ignores_rho p1 p2 strike spot texp cp Hsame)
    as Heq.
  assert (Hret : returns (outcome (price p1 strike spot texp cp))).
  { destruct (Req_dec_T (order p1) 2) as [E | N].
    - eexists. apply price_order_eq2; assumption.
    - eexists. apply price_order_lt2; [assumption | lra]. }
  split; [| split].
  - destruct Hret as [v Hv]. exists v. split; [exact Hv |].
    rewrite <- Heq. exact Hv.
  - intro Hc. rewrite price_stdout, Hc. split; [reflexivity | exact Hret].
  - intro Hc. rewrite price_stdout, Hc. split; [reflexivity |].
    rewrite <- Heq. exact Hret.
Qed.

(** C10. [price] fails exactly when the order is above 2; below 2,
    whatever the number, it returns the base price, and the correction is
    added for order 2 and for no other order. *)
Theorem price_order_dispatch (p : Heston) (strike spot texp cp : R) :
  0 < mr p -> 0 < texp ->
  exists avgVarMean avgVarVar : R,
    avgvar_mv p texp None = Ok (avgVarMean, avgVarVar)
    /\ let m_bs := {| bsm_sigma := sqrt avgVarMean;
                      bsm_intr := intr p;
                      bsm_divr := divr p |} in
       let base := Bsm_price m_bs strike spot texp cp in
       let correction :=
         0.5 * avgVarVar * Bsm_d2_var m_bs strike spot texp cp in
       let r := outcome (price p strike spot texp cp) in
       (~ returns r <-> order p > 2)
       /\ (order p > 2 -> r = ValueError (order p))
       /\ (order p < 2 -> r = Ok base)
       /\ (order p = 2 -> r = Ok (base + correction))
       /\ (r = Ok (base + correction) -> correction <> 0 -> order p = 2).
Proof.
  intros Hm Ht. assert (Ha : mr p * texp <> 0) by nra.
  destruct (Spec.averageVarianceMoments p texp (sigma p))
    as [mean var] eqn:E.
  exists mean, var. split.
  { rewrite avgvar_mv_default by assumption. now rewrite E. }
  intros m_bs base correction r.
  assert (Hgt : order p > 2 -> r = ValueError (order p)).
  { intro Ho. apply price_order_gt2; assumption. }
  assert (Hlt : order p < 2 -> r = Ok base).
  { intro Ho. subst r. rewrite price_order_lt2 by assumption.
    unfold Spec.effectivePricer. rewrite E. reflexivity. }
  assert (Heq : order p = 2 -> r = Ok (base + correction)).
  { intro Ho. subst r. rewrite price_order_eq2 by assumption.
    unfold Spec.effectivePricer. rewrite E. reflexivity. }
  split; [| split; [| split; [| split]]]; try assumption.
  - split.
    + intro Hn. destruct (Rle_dec (order p) 2) as [Hle | Hnle]; [| lra].
      exfalso. apply Hn. destruct (Req_dec_T (order p) 2) as [E2 | N].
      * eexists. apply Heq, E2.
      * eexists. apply Hlt. lra.
    + intros Ho [v Hv]. rewrite (Hgt Ho) in Hv. discriminate Hv.
  - intros Hr Hc. destruct (Req_dec_T (order p) 2) as [E2 | N]; [exact E2 |].
    exfalso. destruct (Rgt_dec (order p) 2) as [G | NG].
    + rewrite (Hgt G) in Hr. discriminate Hr.
    + assert (Hb : r = Ok base) by (apply Hlt; lra).
      rewrite Hb in Hr. injection Hr as Hr. lra.
Qed.

End PriceClaims.

(** ** Derivatives

    [derivable_pt_lim] for functions written as plain abstractions, and a
    monotonicity criterion on an interval. *)

Lemma dlim_eq (f : R -> R) (x l l' : R) :
  derivable_pt_lim f x l -> l = l' -> derivable_pt_lim f x l'.
Proof. intros H <-. exact H. Qed.

Lemma dlim_const (c x : R) : derivable_pt_lim (fun _ => c) x 0.
Proof. apply (derivable_pt_lim_const c x). Qed.

Lemma dlim_id (x : R) : derivable_pt_lim (fun t => t) x 1.
Proof. apply (derivable_pt_lim_id x). Qed.

Lemma dlim_plus (f g : R -> R) (x lf lg : R) :
  derivable_pt_lim f x lf -> derivable_pt_lim g x lg ->
  derivable_pt_lim (fun t => f t + g t) x (lf + lg).
Proof. apply derivable_pt_lim_plus. Qed.

Lemma dlim_minus (f g : R -> R) (x lf lg : R) :
  derivable_pt_lim f x lf -> derivable_pt_lim g x lg ->
  derivable_pt_lim (fun t => f t - g t) x (lf - lg).
Proof. apply derivable_pt_lim_minus. Qed.

Lemma dlim_mult (f g : R -> R) (x lf lg : R) :
  derivable_pt_lim f x lf -> derivable_pt_lim g x lg ->
  derivable_pt_lim (fun t => f t * g t) x (lf * g x + f x * lg).
Proof. apply derivable_pt_lim_mult. Qed.

Lemma dlim_exp_neg_scaled (k x : R) :
  derivable_pt_lim (fun t => exp (- (k * t))) x (- k * exp (- (k * x))).
Proof.
  replace (- k * exp (- (k * x))) with (exp (- (k * x)) * (- (k * 1)))
    by ring.
  apply (derivable_pt_lim_comp (fun t => - (k * t)) exp).
  - apply (derivable_pt_lim_opp (fun t => k * t)).
    apply (derivable_pt_lim_scal id k x 1). apply derivable_pt_lim_id.
  - apply derivable_pt_lim_exp.
Qed.

Lemma dlim_exp_neg (x : R) :
  derivable_pt_lim (fun t => exp (- t)) x (- exp (- x)).
Proof.
  replace (- exp (- x)) with (exp (- x) * (- 1)) by ring.
  apply (derivable_pt_lim_comp (fun t => - t) exp).
  - apply (derivable_pt_lim_opp id). apply derivable_pt_lim_id.
  - apply derivable_pt_lim_exp.
Qed.

Ltac dlim_step :=
  first [ apply dlim_const | apply dlim_id
        | apply dlim_exp_neg | apply dlim_exp_neg_scaled
        | apply dlim_minus | apply dlim_plus | apply dlim_mult ].

Ltac dlim := eapply dlim_eq; [ repeat dlim_step | cbv beta ].

Lemma nondecreasing_from_derivative (f f' : R -> R) (a b : R) :
  (forall x, derivable_pt_lim f x (f' x)) ->
  a < b -> (forall t, a < t < b -> 0 <= f' t) -> f a <= f b.
Proof.
  intros Hd Hab Hpos.
  set (pr := fun x =>
         exist (derivable_pt_abs f x) (f' x) (Hd x) : derivable_pt f x).
  apply (derive_increasing_interv_var a b f pr Hab).
  - intros t Ht. cbn. apply Hpos, Ht.
  - lra.
  - lra.
  - exact Hab.
Qed.

(** ** Sign of the two weights *)









(** ** The same variance in double precision *)

Lemma exp_neg_taylor2 (a : R) : 0 <= a -> exp (- a) <= 1 - a + a * a / 2.
Proof.
  intros [Ha | <-]; [| rewrite Ropp_0, exp_0; lra].
  pose proof (nondecreasing_from_derivative
                (fun t => 1 - t + t * t * / 2 - exp (- t))
                (fun t => exp (- t) - (1 - t)) 0 a) as H.
  cbv beta in H. lapply H; [clear H; intro H | intro x; dlim; field].
  specialize (H Ha).
  lapply H; [clear H; intro H
            | intros t _; pose proof (exp_ineq1_le (- t)); lra].
  rewrite Ropp_0, exp_0 in H. lra.
Qed.

Lemma exp_neg_taylor3 (a : R) :
  0 <= a -> 1 - a + a * a / 2 - a * a * a / 6 <= exp (- a).
Proof.
  intros [Ha | <-]; [| rewrite Ropp_0, exp_0; lra].
  pose proof (nondecreasing_from_derivative
                (fun t => exp (- t)
                          - (1 - t + t * t * / 2 - t * t * t * / 6))
                (fun t => 1 - t + t * t / 2 - exp (- t)) 0 a) as H.
  cbv beta in H. lapply H; [clear H; intro H | intro x; dlim; field].
  specialize (H Ha).
  lapply H; [clear H; intro H
            | intros t Ht; pose proof (exp_neg_taylor2 t ltac:(lra)); lra].
  rewrite Ropp_0, exp_0 in H. lra.
Qed.

(** The value taken for [np.exp] is within half a unit in the last place
    of the exponential of its argument. *)
Lemma np_exp_sample_correctly_rounded :
  F64.np_exp_sample (-0x1.421f5f40d8376p-23) = 0x1.fffffaf782895p-1%float
  /\ Rabs (F64.F2R 0x1.fffffaf782895p-1
           - exp (F64.F2R (-0x1.421f5f40d8376p-23)))
     < powerRZ 2 (-54).
Proof.
  split; [vm_compute; reflexivity |].
  unfold F64.F2R.
  replace (Prim2SF 0x1.fffffaf782895p-1)
    with (S754_finite false 9007197903661205 (-53))
    by (vm_compute; reflexivity).
  replace (Prim2SF (-0x1.421f5f40d8376p-23))
    with (S754_finite true 5666839779443574 (-75))
    by (vm_compute; reflexivity).
  unfold F64.SF2R.
  set (a := IZR 5666839779443574 * powerRZ 2 (-75)).
  replace (-1 * IZR 5666839779443574 * powerRZ 2 (-75)) with (- a)
    by (subst a; ring).
  assert (Ha : a = 5666839779443574 / 2 ^ 75)
    by (subst a; cbn; unfold Rdiv; reflexivity).
  assert (H0 : 0 <= a) by (rewrite Ha; lra).
  pose proof (exp_neg_taylor2 a H0) as HU.
  pose proof (exp_neg_taylor3 a H0) as HL.
  replace (powerRZ 2 (-53)) with (/ 2 ^ 53) by reflexivity.
  replace (powerRZ 2 (-54)) with (/ 2 ^ 54) by reflexivity.
  set (E := exp (- a)) in *. clearbody E.
  rewrite Ha in HU, HL. clear Ha H0.
  apply Rabs_def1; lra.
Qed.


(** ** The moment equations of the variance process

    For the diffusion [dV = mr (theta - V) dt + vov sqrt V dW] the mean [M]
    and the variance [S] of [V t] given [V 0 = var0] are the solution of
    [M' = mr (theta - M)], [S' = vov^2 M - 2 mr S], [M 0 = var0],
    [S 0 = 0]. *)

Lemma varianceMoments_initial (p : Heston) (var0 : R) :
  mr p <> 0 -> Spec.varianceMoments p var0 0 = (var0, 0).
Proof.
  intro Hm. unfold Spec.varianceMoments.
  rewrite Rmult_0_r, Ropp_0, exp_0. f_equal; field. exact Hm.
Qed.

Lemma varianceMoments_mean_equation (p : Heston) (var0 t : R) :
  derivable_pt_lim (fun s => fst (Spec.varianceMoments p var0 s)) t
    (mr p * (theta p - fst (Spec.varianceMoments p var0 t))).
Proof.
  unfold Spec.varianceMoments. cbn [fst]. dlim. ring.
Qed.

Lemma varianceMoments_variance_equation (p : Heston) (var0 t : R) :
  mr p <> 0 ->
  derivable_pt_lim (fun s => snd (Spec.varianceMoments p var0 s)) t
    (vov p ^ 2 * fst (Spec.varianceMoments p var0 t)
     - 2 * mr p * snd (Spec.varianceMoments p var0 t)).
Proof.
  intro Hm. unfold Spec.varianceMoments. cbn [fst snd]. unfold Rdiv.
  dlim. field. exact Hm.
Qed.

(** C6. [var_mv] returns [mean = theta + (var0 - theta) e] and
    [variance = (var0 e + theta (1 - e) / 2) vov^2 (1 - e) / mr] with
    [e = exp (- mr dt)]; as functions of the time step these two are the
    solution of the moment equations of the variance diffusion started at
    [var0], that is, its conditional mean and variance. *)
Theorem var_mv_moments (p : Heston) (var0 dt : R) :
  0 < mr p -> 0 <= dt ->
  let M := fun t => fst (Spec.varianceMoments p var0 t) in
  let S := fun t => snd (Spec.varianceMoments p var0 t) in
  var_mv p var0 dt = Ok (M dt, S dt)
  /\ M dt = theta p + (var0 - theta p) * exp (- (mr p * dt))
  /\ S dt = (var0 * exp (- (mr p * dt))
             + theta p * (1 - exp (- (mr p * dt))) / 2)
            * vov p ^ 2 * (1 - exp (- (mr p * dt))) / mr p
  /\ M 0 = var0 /\ S 0 = 0
  /\ derivable_pt_lim M dt (mr p * (theta p - M dt))
  /\ derivable_pt_lim S dt (vov p ^ 2 * M dt - 2 * mr p * S dt).
Proof.
  intros Hm Hdt M S. assert (Hm0 : mr p <> 0) by lra.
  split; [| split; [| split; [| split; [| split; [| split]]]]].
  - rewrite var_mv_eval by exact Hm0. subst M S. cbv beta.
    now rewrite <- surjective_pairing.
  - reflexivity.
  - reflexivity.
  - subst M. cbv beta. now rewrite varianceMoments_initial.
  - subst S. cbv beta. now rewrite varianceMoments_initial.
  - apply varianceMoments_mean_equation.
  - apply varianceMoments_variance_equation, Hm0.
Qed.

(** ** The claims on sample inputs *)

Lemma isclose_half : isclose 0.5 0 = false.
Proof.
  unfold isclose, atol, rtol.
  destruct (Rle_dec (Rabs (0.5 - 0)) (1e-8 + 1e-5 * Rabs 0)) as [H | _];
    [| reflexivity].
  exfalso. rewrite Rabs_R0 in H. rewrite Rabs_pos_eq in H; lra.
Qed.

(** C5, as stated, fails: an instance with order 3 and [rho = 0.5] prints
    the correlation warning before the call fails, so something has been
    done by the time the order is rejected. *)
Lemma price_order3_prints_before_failing :
  let self := with_order (with_rho scenario 0.5) 3 in
  let c := @price sample_pricer self 100 100 1 1 in
  order self > 2
  /\ outcome c = ValueError 3
  /\ stdout c = [PricingIgnoresRho 0.5]
  /\ c <> {| stdout := []; outcome := ValueError 3 |}.
Proof.
  intros self c.
  assert (Hout : stdout c = [PricingIgnoresRho 0.5]).
  { subst c. rewrite price_stdout. subst self. cbn [rho with_order with_rho].
    now rewrite isclose_half. }
  repeat split.
  - subst self. cbn. lra.
  - subst c. rewrite price_order_gt2; subst self; cbn; [reflexivity | lra | lra].
  - exact Hout.
  - intro H. rewrite H in Hout. discriminate Hout.
Qed.

Lemma varswap_discrete_four_terms_witness :
  varswap scenario 1 (Some 252)
  = Ok (Spec.baseStrike scenario 1
        + Spec.rateTerm scenario 1 252
        + Spec.vovTerm scenario 252
        + Spec.crossTerm scenario 1 252
        + Spec.convexityTerm scenario 1 252).
Proof.
  apply (varswap_discrete_four_terms scenario 1 252); cbn; lra.
Defined.

Lemma price_order2_second_order_witness :
  exists avgVarMean avgVarVar : R,
    avgvar_mv scenario 1 None = Ok (avgVarMean, avgVarVar)
    /\ (avgVarMean, avgVarVar)
       = Spec.averageVarianceMoments scenario 1 (sigma scenario)
    /\ outcome (@price sample_pricer scenario 100 100 1 1)
       = let m_bs := {| bsm_sigma := sqrt avgVarMean;
                        bsm_intr := intr scenario;
                        bsm_divr := divr scenario |} in
         Ok (@Bsm_price sample_pricer m_bs 100 100 1 1
             + 0.5 * avgVarVar * @Bsm_d2_var sample_pricer m_bs 100 100 1 1).
Proof.
  apply (@price_order2_second_order sample_pricer scenario 100 100 1 1);
    cbn; lra.
Defined.

Lemma varswap_continuous_is_avgvar_mean_witness :
  varswap scenario 1 None
  = fmap fst (avgvar_mv scenario 1 (Some (sigma scenario)))
  /\ varswap scenario 1 None = fmap fst (avgvar_mv scenario 1 None)
  /\ varswap scenario 1 None
     = Ok (fst (Spec.averageVarianceMoments scenario 1 (sigma scenario)))
  /\ varswap scenario 1 None = Ok (Spec.baseStrike scenario 1).
Proof.
  apply (varswap_continuous_is_avgvar_mean scenario 1); cbn; lra.
Defined.

Lemma price_order_above2_fails_witness :
  let self := with_order (with_rho scenario 0.5) 3 in
  outcome (@price sample_pricer self 100 100 1 1) = ValueError (order self)
  /\ ~ returns (outcome (@price sample_pricer self 100 100 1 1))
  /\ stdout (@price sample_pricer self 100 100 1 1)
     = if isclose (rho self) 0 then [] else [PricingIgnoresRho (rho self)].
Proof.
  intro self.
  apply (@price_order_above2_fails sample_pricer self 100 100 1 1);
    subst self; cbn; lra.
Defined.

Lemma var_mv_moments_witness :
  var_mv scenario 0.04 1
  = Ok (fst (Spec.varianceMoments scenario 0.04 1),
        snd (Spec.varianceMoments scenario 0.04 1)).
Proof.
  apply (var_mv_moments scenario 0.04 1); cbn; lra.
Defined.


Lemma price_independent_of_rho_witness :
  exists v : R,
    outcome (@price sample_pricer scenario 100 100 1 1) = Ok v
    /\ outcome (@price sample_pricer (with_rho scenario 0.5) 100 100 1 1)
       = Ok v.
Proof.
  apply (@price_independent_of_rho sample_pricer
           scenario (with_rho scenario 0.5) 100 100 1 1).
  - repeat split.
  - cbn; lra.
  - lra.
  - cbn; lra.
Defined.

Lemma avgvar_mv_zero_is_default_witness :
  avgvar_mv scenario 1 (Some 0) = avgvar_mv scenario 1 None.
Proof.
  apply (avgvar_mv_zero_is_default scenario 1); cbn; lra.
Defined.

Lemma price_order_dispatch_witness :
  returns (outcome (@price sample_pricer (with_order scenario 1.5)
                      100 100 1 1)).
Proof.
  destruct (@price_order_dispatch sample_pricer (with_order scenario 1.5)
              100 100 1 1)
    as (m & v & _ & _ & _ & Hlt & _).
  - cbn; lra.
  - lra.
  - eexists. apply Hlt. cbn; lra.
Defined.

(** * Further properties of the four functions *)

(** ** [var_mv]: range, sign and composition *)

Lemma exp_neg_le_1 (x : R) : 0 <= x -> exp (- x) <= 1.
Proof.
  intros [Hx | <-].
  - apply Rlt_le, exp_neg_lt_1, Hx.
  - rewrite Ropp_0, exp_0. lra.
Qed.

(** X1. The mean returned by [var_mv] lies between the starting variance and
    the long-run level, and is at least as close to [theta] as [var0]. *)
Theorem var_mv_mean_between (p : Heston) (var0 dt : R) :
  0 < mr p -> 0 <= dt ->
  exists m s2 : R,
    var_mv p var0 dt = Ok (m, s2)
    /\ Rmin var0 (theta p) <= m <= Rmax var0 (theta p)
    /\ Rabs (m - theta p) <= Rabs (var0 - theta p).
Proof.
  intros Hm Hdt. rewrite var_mv_eval by lra.
  unfold Spec.varianceMoments. do 2 eexists. split; [reflexivity |].
  assert (He1 : exp (- (mr p * dt)) <= 1) by (apply exp_neg_le_1; nra).
  pose proof (exp_pos (- (mr p * dt))) as He0.
  set (e := exp (- (mr p * dt))) in *.
  split.
  - unfold Rmin, Rmax. destruct (Rle_dec var0 (theta p)); split; nra.
  - replace (theta p + (var0 - theta p) * e - theta p)
      with ((var0 - theta p) * e) by ring.
    rewrite Rabs_mult, (Rabs_pos_eq e) by lra.
    pose proof (Rabs_pos (var0 - theta p)). nra.
Qed.

(** X2. With a starting variance and a long-run level that are not negative,
    the variance returned by [var_mv] is not negative. *)
Theorem var_mv_variance_nonneg (p : Heston) (var0 dt : R) :
  0 < mr p -> 0 <= dt -> 0 <= var0 -> 0 <= theta p ->
  exists m s2 : R, var_mv p var0 dt = Ok (m, s2) /\ 0 <= m /\ 0 <= s2.
Proof.
  intros Hm Hdt Hv Hth. rewrite var_mv_eval by lra.
  unfold Spec.varianceMoments. do 2 eexists. split; [reflexivity |].
  assert (He1 : exp (- (mr p * dt)) <= 1) by (apply exp_neg_le_1; nra).
  pose proof (exp_pos (- (mr p * dt))) as He0.
  set (e := exp (- (mr p * dt))) in *.
  split; [nra |].
  apply Rmult_le_pos; [| apply Rlt_le, Rinv_0_lt_compat, Hm].
  apply Rmult_le_pos; [| lra].
  apply Rmult_le_pos; [nra | apply pow2_ge_0].
Qed.

Lemma var_mv_Ok_inv (p : Heston) (var0 dt : R) (r : R * R) :
  var_mv p var0 dt = Ok r -> mr p <> 0.
Proof.
  intros H Hm. unfold var_mv in H. rewrite Hm, pydiv_zero in H.
  discriminate H.
Qed.

(** X3. Two steps compose: the moments over [dt1 + dt2] are the moments over
    [dt2] taken at the mean reached after [dt1], plus the variance after
    [dt1] damped by [exp (- mr dt2) ^ 2] (the law of total variance). *)
Theorem var_mv_two_steps (p : Heston) (var0 dt1 dt2 m1 s1 m2 s2 : R) :
  var_mv p var0 dt1 = Ok (m1, s1) ->
  var_mv p m1 dt2 = Ok (m2, s2) ->
  var_mv p var0 (dt1 + dt2)
  = Ok (m2, s2 + exp (- mr p * dt2) ^ 2 * s1).
Proof.
  intros H1 H2. pose proof (var_mv_Ok_inv _ _ _ _ H1) as Hm.
  unfold var_mv in *.
  rewrite !pydiv_ok in * by exact Hm. cbn [bind] in *.
  injection H1 as <- <-. injection H2 as <- <-.
  replace (- mr p * (dt1 + dt2)) with (- mr p * dt1 + - mr p * dt2) by ring.
  rewrite exp_plus.
  set (e1 := exp (- mr p * dt1)). set (e2 := exp (- mr p * dt2)).
  f_equal. f_equal; field; exact Hm.
Qed.

(** ** [avgvar_mv] and [var_mv] together *)

(** X6. [texp] times the mean of the average variance is the integral over
    [0, texp] of the mean that [var_mv] returns: it is [F texp - F 0] for
    a primitive [F] of that mean. *)
Theorem avgvar_mean_integrates_var_mean (p : Heston) :
  0 < mr p ->
  exists F : R -> R,
    (forall t : R,
        exists m s2 : R,
          var_mv p (sigma p) t = Ok (m, s2) /\ derivable_pt_lim F t m)
    /\ (forall texp : R,
           texp <> 0 ->
           exists mean var : R,
             avgvar_mv p texp None = Ok (mean, var)
             /\ texp * mean = F texp - F 0).
Proof.
  intro Hm.
  exists (fun t => theta p * t
                   - (sigma p - theta p) * / mr p * exp (- (mr p * t))).
  split.
  - intro t. rewrite var_mv_eval by lra.
    unfold Spec.varianceMoments. do 2 eexists. split; [reflexivity |].
    dlim. field. lra.
  - intros texp Ht. assert (Ha : mr p * texp <> 0) by nra.
    rewrite avgvar_mv_eval by exact Ha. rewrite py_or_None.
    unfold Spec.averageVarianceMoments. do 2 eexists.
    split; [reflexivity |].
    cbv beta. rewrite !Rmult_0_r, Ropp_0, exp_0. field. split; lra.
Qed.

(** ** [varswap]: what it reads *)

(** X8. The continuously monitored strike reads [sigma], [theta] and [mr]
    only: instances that agree on these three give the same strike, and
    the discretely monitored strike reads neither [divr] nor [order]. *)
Theorem varswap_reads (p1 p2 : Heston) (texp : R) (n_per_yr : option R) :
  sigma p1 = sigma p2 -> theta p1 = theta p2 -> mr p1 = mr p2 ->
  varswap p1 texp None = varswap p2 texp None
  /\ (vov p1 = vov p2 -> rho p1 = rho p2 -> intr p1 = intr p2 ->
      varswap p1 texp n_per_yr = varswap p2 texp n_per_yr).
Proof.
  intros Hs Hth Hm. split.
  - unfold varswap. rewrite Hs, Hth, Hm. reflexivity.
  - intros Hv Hr Hi. unfold varswap. rewrite Hs, Hth, Hm, Hv, Hr, Hi.
    reflexivity.
Qed.

(** ** Units

    The moments do not depend on the unit of variance nor on the unit of
    time. *)

(** X10. Quoting variance in another unit ([theta], [sigma], [var0] times [c],
    [vov ^ 2] times [c]) multiplies the means by [c] and the variances by
    [c ^ 2]. *)
Theorem moments_variance_unit (p p' : Heston) (c texp var0 dt : R) :
  mr p' = mr p -> theta p' = c * theta p -> sigma p' = c * sigma p ->
  vov p' ^ 2 = c * vov p ^ 2 ->
  0 < mr p -> 0 < texp ->
  (exists mean var : R,
      avgvar_mv p texp None = Ok (mean, var)
      /\ avgvar_mv p' texp None = Ok (c * mean, c ^ 2 * var))
  /\ (exists m s2 : R,
         var_mv p var0 dt = Ok (m, s2)
         /\ var_mv p' (c * var0) dt = Ok (c * m, c ^ 2 * s2)).
Proof.
  intros Hmr Hth Hs Hv Hm Ht. assert (Ha : mr p * texp <> 0) by nra.
  split.
  - rewrite !avgvar_mv_eval by (rewrite ?Hmr; exact Ha).
    rewrite !py_or_None. unfold Spec.averageVarianceMoments.
    do 2 eexists. split; [reflexivity |].
    rewrite Hmr, Hth, Hs.
    replace ((vov p' / (mr p * texp)) ^ 2)
      with (vov p' ^ 2 / (mr p * texp) ^ 2) by (field; lra).
    rewrite Hv. replace 2.5 with (5 / 2) by lra.
    f_equal. f_equal; field; lra.
  - rewrite !var_mv_eval by (rewrite ?Hmr; lra).
    unfold Spec.varianceMoments. do 2 eexists. split; [reflexivity |].
    rewrite Hmr, Hth.
    replace ((c * var0 * exp (- (mr p * dt))
              + c * theta p * (1 - exp (- (mr p * dt))) / 2)
             * vov p' ^ 2 * (1 - exp (- (mr p * dt))) / mr p)
      with ((c * var0 * exp (- (mr p * dt))
             + c * theta p * (1 - exp (- (mr p * dt))) / 2)
            * (vov p' ^ 2) * (1 - exp (- (mr p * dt))) / mr p)
      by reflexivity.
    rewrite Hv. f_equal. f_equal; field; lra.
Qed.

(** X11. Measuring time in another unit ([texp] and [dt] times [c], [mr] and
    [vov ^ 2] divided by [c]) changes neither pair of moments. *)
Theorem moments_time_unit (p p' : Heston) (c texp var0 dt : R) :
  mr p' = mr p / c -> vov p' ^ 2 = vov p ^ 2 / c ->
  theta p' = theta p -> sigma p' = sigma p ->
  0 < c -> 0 < mr p -> 0 < texp ->
  returns (avgvar_mv p texp None)
  /\ avgvar_mv p' (c * texp) None = avgvar_mv p texp None
  /\ returns (var_mv p var0 dt)
  /\ var_mv p' var0 (c * dt) = var_mv p var0 dt.
Proof.
  intros Hmr Hv Hth Hs Hc Hm Ht. assert (Ha : mr p * texp <> 0) by nra.
  assert (Ea : mr p / c * (c * texp) = mr p * texp) by (field; lra).
  assert (Ed : mr p / c * (c * dt) = mr p * dt) by (field; lra).
  split; [| split; [| split]].
  - eexists. apply avgvar_mv_eval, Ha.
  - rewrite !avgvar_mv_eval by (rewrite ?Hmr, ?Ea; exact Ha).
    rewrite !py_or_None. unfold Spec.averageVarianceMoments.
    rewrite Hmr, Hth, Hs, Ea.
    replace ((vov p' / (mr p * texp)) ^ 2)
      with (vov p' ^ 2 / (mr p * texp) ^ 2) by (field; lra).
    rewrite Hv. f_equal. f_equal. field. lra.
  - eexists. apply var_mv_eval. lra.
  - assert (Hm' : mr p' <> 0).
    { rewrite Hmr. unfold Rdiv.
      apply Rmult_integral_contrapositive_currified;
        [lra | apply Rinv_neq_0_compat; lra]. }
    rewrite !var_mv_eval by (exact Hm' || lra).
    unfold Spec.varianceMoments. rewrite Hmr, Hth, Ed.
    replace ((var0 * exp (- (mr p * dt))
              + theta p * (1 - exp (- (mr p * dt))) / 2)
             * vov p' ^ 2 * (1 - exp (- (mr p * dt))) / (mr p / c))
      with ((var0 * exp (- (mr p * dt))
             + theta p * (1 - exp (- (mr p * dt))) / 2)
            * (vov p' ^ 2) * (1 - exp (- (mr p * dt))) / (mr p / c))
      by reflexivity.
    rewrite Hv. f_equal. f_equal. field. split; lra.
Qed.

(** ** [price]: when it warns, and the case [vov = 0] *)

Lemma isclose_zero_iff (r : R) : isclose r 0 = true <-> Rabs r <= 1e-8.
Proof.
  unfold isclose, atol, rtol. rewrite Rminus_0_r, Rabs_R0.
  destruct (Rle_dec (Rabs r) (1e-8 + 1e-5 * 0)) as [H | H]; split; intro G.
  - lra.
  - reflexivity.
  - discriminate G.
  - exfalso. apply H. lra.
Qed.

Section PriceFurther.

Context {bs : BsmMethods}.

(** X13. The warning is printed exactly when [rho] is beyond [1e-8] in
    absolute value, once and with the value of [rho]. *)
Theorem price_warns_iff (p : Heston) (strike spot texp cp : R) :
  (Rabs (rho p) <= 1e-8 -> stdout (price p strike spot texp cp) = [])
  /\ (1e-8 < Rabs (rho p) ->
      stdout (price p strike spot texp cp) = [PricingIgnoresRho (rho p)]).
Proof.
  rewrite price_stdout. split; intro H.
  - apply isclose_zero_iff in H. now rewrite H.
  - destruct (isclose (rho p) 0) eqn:E; [| reflexivity].
    apply isclose_zero_iff in E. lra.
Qed.

(** X14. Without volatility of variance the average variance has no variance,
    and the second-order price is the first-order price. *)
Theorem price_without_vov (p : Heston) (strike spot texp cp : R) :
  vov p = 0 -> 0 < mr p -> 0 < texp -> order p = 2 ->
  (exists mean : R, avgvar_mv p texp None = Ok (mean, 0))
  /\ returns (outcome (price p strike spot texp cp))
  /\ outcome (price p strike spot texp cp)
     = outcome (price (with_order p 1) strike spot texp cp).
Proof.
  intros Hv Hm Ht Ho. assert (Ha : mr p * texp <> 0) by nra.
  assert (Hvar : snd (Spec.averageVarianceMoments p texp (sigma p)) = 0)
    by (apply avgvar_variance_without_vov, Hv).
  split; [| split].
  - rewrite avgvar_mv_eval by exact Ha. rewrite py_or_None.
    destruct (Spec.averageVarianceMoments p texp (sigma p)) as [m v].
    cbn [snd] in Hvar. subst v. now exists m.
  - eexists. apply price_order_eq2; assumption.
  - rewrite price_order_eq2 by assumption.
    rewrite (price_order_lt2 (with_order p 1)) by (cbn; lra).
    unfold Spec.effectivePricer, Spec.averageVarianceMoments in *.
    cbn [with_order sigma vov mr theta intr divr fst snd] in *.
    rewrite Hvar. f_equal. ring.
Qed.

End PriceFurther.

(** ** The further properties on sample inputs *)

Lemma var_mv_mean_between_witness :
  exists m s2 : R,
    var_mv scenario_high 0.09 1 = Ok (m, s2)
    /\ Rmin 0.09 (theta scenario_high) <= m <= Rmax 0.09 (theta scenario_high)
    /\ Rabs (m - theta scenario_high) <= Rabs (0.09 - theta scenario_high).
Proof.
  apply (var_mv_mean_between scenario_high 0.09 1); cbn; lra.
Defined.

Lemma var_mv_variance_nonneg_witness :
  exists m s2 : R,
    var_mv scenario_high 0.09 1 = Ok (m, s2) /\ 0 <= m /\ 0 <= s2.
Proof.
  apply (var_mv_variance_nonneg scenario_high 0.09 1); cbn; lra.
Defined.

Lemma var_mv_two_steps_witness :
  var_mv scenario_high 0.09 (1 + 2)
  = Ok (fst (Spec.varianceMoments scenario_high
               (fst (Spec.varianceMoments scenario_high 0.09 1)) 2),
        snd (Spec.varianceMoments scenario_high
               (fst (Spec.varianceMoments scenario_high 0.09 1)) 2)
        + exp (- mr scenario_high * 2) ^ 2
          * snd (Spec.varianceMoments scenario_high 0.09 1)).
Proof.
  apply (var_mv_two_steps scenario_high 0.09 1 2
           (fst (Spec.varianceMoments scenario_high 0.09 1))
           (snd (Spec.varianceMoments scenario_high 0.09 1))).
  - rewrite var_mv_eval by (cbn; lra). now rewrite <- surjective_pairing.
  - rewrite var_mv_eval by (cbn; lra). now rewrite <- surjective_pairing.
Defined.

Lemma avgvar_mean_integrates_var_mean_witness :
  exists F : R -> R,
    (forall t : R,
        exists m s2 : R,
          var_mv scenario_high (sigma scenario_high) t = Ok (m, s2)
          /\ derivable_pt_lim F t m)
    /\ (forall texp : R,
           texp <> 0 ->
           exists mean var : R,
             avgvar_mv scenario_high texp None = Ok (mean, var)
             /\ texp * mean = F texp - F 0).
Proof.
  apply (avgvar_mean_integrates_var_mean scenario_high); cbn; lra.
Defined.

Lemma varswap_reads_witness :
  varswap scenario 1 None = varswap (with_vov scenario 0.5) 1 None.
Proof.
  exact (proj1 (varswap_reads scenario (with_vov scenario 0.5) 1 None
                  eq_refl eq_refl eq_refl)).
Defined.

Lemma moments_variance_unit_witness :
  exists mean var : R,
    avgvar_mv scenario 1 None = Ok (mean, var)
    /\ avgvar_mv scenario_times4 1 None = Ok (4 * mean, 4 ^ 2 * var).
Proof.
  apply (moments_variance_unit scenario scenario_times4 4 1 0.04 1);
    cbn; lra.
Defined.

Lemma moments_time_unit_witness :
  avgvar_mv scenario_quarters (4 * 1) None = avgvar_mv scenario 1 None.
Proof.
  apply (moments_time_unit scenario scenario_quarters 4 1 0.04 1);
    cbn; lra.
Defined.

Lemma price_without_vov_witness :
  outcome (@price sample_pricer (with_vov scenario 0) 100 100 1 1)
  = outcome (@price sample_pricer (with_order (with_vov scenario 0) 1)
               100 100 1 1).
Proof.
  apply (@price_without_vov sample_pricer (with_vov scenario 0) 100 100 1 1);
    cbn; lra.
Defined.

